(** * openMVG: the base class of the sequential SfM reconstruction engine

    A shallow embedding of
    [src/openMVG/sfm/pipelines/sequential/sequential_SfM_base.hpp]:
    the data members of [SequentialSfMReconstructionEngineBase] as a record,
    its inline member functions as functions on that record, and the
    properties of the configuration interface proved about them. *)

From Stdlib Require Import NArith ZArith QArith.
From stdpp Require Import base decidable option list gmap sets strings.

Local Open Scope N_scope.

(** ** Types used by the header *)

(** [IndexT] is [uint32_t]; [unsigned] is a 32-bit unsigned integer.  Both
    are kept as [N]; the header computes nothing with them (it stores and
    compares), so no wrap-around arises. *)
Definition IndexT : Type := N.
Definition unsigned : Type := N.

(** [Pair] is a [std::pair] and [Triplet] a [std::tuple] of view indices. *)
Definition Pair : Type := IndexT * IndexT.
Definition Triplet : Type := IndexT * IndexT * IndexT.

(** [std::get<2>] on a [Triplet]. *)
Definition get2 (t : Triplet) : IndexT := snd t.

(** [operator==] and [operator!=] of [std::pair] and [std::tuple]:
    member-wise equality, and its negation. *)
Definition Pair_eq (a b : Pair) : bool :=
  (fst a =? fst b) && (snd a =? snd b).
Definition Pair_ne (a b : Pair) : bool := negb (Pair_eq a b).

Definition Triplet_eq (a b : Triplet) : bool :=
  (fst (fst a) =? fst (fst b)) && (snd (fst a) =? snd (fst b))
  && (snd a =? snd b).
Definition Triplet_ne (a b : Triplet) : bool := negb (Triplet_eq a b).

(** Modelled from the spec: the enumeration of
    [multiview_match_constraint.hpp], which is not among the sources.  The
    configuration table gives it the two values UNCONSTRAINED and
    ORIENTATION; the header names ORIENTATION only. *)
Module MultiviewMatchConstraint.
Inductive t : Type := UNCONSTRAINED | ORIENTATION.

Definition eqb (a b : t) : bool :=
  match a, b with
  | UNCONSTRAINED, UNCONSTRAINED | ORIENTATION, ORIENTATION => true
  | _, _ => false
  end.
End MultiviewMatchConstraint.

(** Modelled from the spec: the enumeration of [triangulation_method.hpp],
    which is not among the sources, with the variants of the configuration
    table. *)
Module ETriangulationMethod.
Inductive t : Type :=
| DIRECT_LINEAR
| L1_ANGULAR
| LINFINITY_ANGULAR
| INVERSE_DEPTH_WEIGHTED
| DEFAULT.
End ETriangulationMethod.

(** Modelled from the spec: [resection::SolverType] of
    [solver_resection.hpp], which is not among the sources, with the
    variants of the configuration table. *)
Module resection.
Inductive SolverType : Type :=
| P3P_KE
| P3P_KNEIP
| P3P_NORDBERG
| UP2P_KUKELOVA
| EPNP
| DLT_6POINTS
| DEFAULT.
End resection.

(** Modelled from the spec: [cameras::EINTRINSIC], the lens-distortion model
    tag of an intrinsic, declared in headers that are not among the
    sources.  The data model lists pinhole, pinhole+radial-k1,
    pinhole+radial-k3, brown and fisheye and leaves the list open; further
    tags are kept by their enumerator value. *)
Module cameras.
Inductive EINTRINSIC : Type :=
| PINHOLE
| PINHOLE_RADIAL_K1
| PINHOLE_RADIAL_K3
| PINHOLE_BROWN
| PINHOLE_FISHEYE
| OTHER_MODEL (tag : N).
End cameras.

(** A pointer-like member ([shared_ptr], [unique_ptr] or a raw pointer) is
    null or designates an object, kept by an identifier. *)
Definition pointer : Type := option N.

(** [tracks::STLMAPTracks]: track identifier to (view identifier to feature
    index). *)
Definition STLMAPTracks : Type := gmap N (gmap N N).

(** Modelled from the spec: the scene held by the engine.  Of the
    reconstruction of the data model, "the current (Intrinsics, Poses,
    Landmarks) tuple plus the set of registered view identifiers", the view
    identifiers are kept: the views of the scene and those among them that
    are registered. *)
Record SfM_Data : Type := mkSfM_Data {
  views : gset IndexT;
  registered_views : gset IndexT
}.

(** Modelled from the spec: the base class [ReconstructionEngine] of
    [sfm_engine.hpp], which is not among the sources; it is represented by
    what the constructor of the derived class receives for it, the scene
    and the output directory (lines 43-44). *)
Record ReconstructionEngine : Type := mkReconstructionEngine {
  sfm_data_ : SfM_Data;
  sOut_directory_ : string
}.

(** ** The data members (lines 120-150), after the base-class part

    The a-contrario thresholds of [map_ACThreshold_] are [double]s in the
    source; no function of the header reads or computes them, and they are
    kept as rationals. *)

Record engine : Type := mkEngine {
  base_ : ReconstructionEngine;
  html_doc_stream_ : pointer;
  sLogging_file_ : string;
  multiview_match_constraint_ : MultiviewMatchConstraint.t;
  initial_triplet_ : Triplet;
  initial_pair_ : Pair;
  cam_type_ : cameras.EINTRINSIC;
  features_provider_ : pointer;
  matches_provider_ : pointer;
  map_tracks_ : STLMAPTracks;
  shared_track_visibility_helper_ : pointer;
  map_ACThreshold_ : gmap IndexT Q;
  set_remaining_view_id_ : gset IndexT;
  triangulation_method_ : ETriangulationMethod.t;
  resection_method_ : resection.SolverType;
  maximum_trifocal_ransac_iterations_ : unsigned
}.

(** Line 93. *)
Definition maximum_trifocal_ransac_iterations_DEFAULT : unsigned := 100.

(** ** The inline member functions (lines 52-93 and 114) *)

Section Members.
Implicit Type e : engine.

(** Lines 52-53. *)
Definition SetMultiviewMatchConstraint
    (c : MultiviewMatchConstraint.t) e : engine :=
  mkEngine (base_ e) (html_doc_stream_ e) (sLogging_file_ e)
    c
    (initial_triplet_ e) (initial_pair_ e) (cam_type_ e)
    (features_provider_ e) (matches_provider_ e) (map_tracks_ e)
    (shared_track_visibility_helper_ e) (map_ACThreshold_ e)
    (set_remaining_view_id_ e) (triangulation_method_ e)
    (resection_method_ e) (maximum_trifocal_ransac_iterations_ e).

(** Line 55. *)
Definition UseOrientedConstraint e : bool :=
  MultiviewMatchConstraint.eqb (multiview_match_constraint_ e)
    MultiviewMatchConstraint.ORIENTATION.

(** Lines 57-58. *)
Definition setInitialPair (initialPair : Pair) e : engine :=
  mkEngine (base_ e) (html_doc_stream_ e) (sLogging_file_ e)
    (multiview_match_constraint_ e) (initial_triplet_ e)
    initialPair
    (cam_type_ e)
    (features_provider_ e) (matches_provider_ e) (map_tracks_ e)
    (shared_track_visibility_helper_ e) (map_ACThreshold_ e)
    (set_remaining_view_id_ e) (triangulation_method_ e)
    (resection_method_ e) (maximum_trifocal_ransac_iterations_ e).

(** Lines 59-60. *)
Definition setInitialTriplet (initialTriplet : Triplet) e : engine :=
  mkEngine (base_ e) (html_doc_stream_ e) (sLogging_file_ e)
    (multiview_match_constraint_ e)
    initialTriplet
    (initial_pair_ e) (cam_type_ e)
    (features_provider_ e) (matches_provider_ e) (map_tracks_ e)
    (shared_track_visibility_helper_ e) (map_ACThreshold_ e)
    (set_remaining_view_id_ e) (triangulation_method_ e)
    (resection_method_ e) (maximum_trifocal_ransac_iterations_ e).

(** Line 61. *)
Definition hasInitialPair e : bool :=
  Pair_ne (initial_pair_ e) (0, 0).

(** Line 62. *)
Definition hasInitialTriplet e : bool :=
  Triplet_ne (initial_triplet_ e) (0, 0, 0).

(** Lines 76-77. *)
Definition SetUnknownCameraType (camType : cameras.EINTRINSIC) e : engine :=
  mkEngine (base_ e) (html_doc_stream_ e) (sLogging_file_ e)
    (multiview_match_constraint_ e) (initial_triplet_ e) (initial_pair_ e)
    camType
    (features_provider_ e) (matches_provider_ e) (map_tracks_ e)
    (shared_track_visibility_helper_ e) (map_ACThreshold_ e)
    (set_remaining_view_id_ e) (triangulation_method_ e)
    (resection_method_ e) (maximum_trifocal_ransac_iterations_ e).

(** Lines 80-81. *)
Definition SetTriangulationMethod (method : ETriangulationMethod.t) e
    : engine :=
  mkEngine (base_ e) (html_doc_stream_ e) (sLogging_file_ e)
    (multiview_match_constraint_ e) (initial_triplet_ e) (initial_pair_ e)
    (cam_type_ e)
    (features_provider_ e) (matches_provider_ e) (map_tracks_ e)
    (shared_track_visibility_helper_ e) (map_ACThreshold_ e)
    (set_remaining_view_id_ e)
    method
    (resection_method_ e) (maximum_trifocal_ransac_iterations_ e).

(** Lines 84-85. *)
Definition SetResectionMethod (method : resection.SolverType) e : engine :=
  mkEngine (base_ e) (html_doc_stream_ e) (sLogging_file_ e)
    (multiview_match_constraint_ e) (initial_triplet_ e) (initial_pair_ e)
    (cam_type_ e)
    (features_provider_ e) (matches_provider_ e) (map_tracks_ e)
    (shared_track_visibility_helper_ e) (map_ACThreshold_ e)
    (set_remaining_view_id_ e) (triangulation_method_ e)
    method
    (maximum_trifocal_ransac_iterations_ e).

(** Lines 87-88. *)
Definition SetMaximumTrifocalRansacIterations (n : unsigned) e : engine :=
  mkEngine (base_ e) (html_doc_stream_ e) (sLogging_file_ e)
    (multiview_match_constraint_ e) (initial_triplet_ e) (initial_pair_ e)
    (cam_type_ e)
    (features_provider_ e) (matches_provider_ e) (map_tracks_ e)
    (shared_track_visibility_helper_ e) (map_ACThreshold_ e)
    (set_remaining_view_id_ e) (triangulation_method_ e)
    (resection_method_ e)
    n.

(** Lines 90-91. *)
Definition MaximumTrifocalRansacIterations e : unsigned :=
  maximum_trifocal_ransac_iterations_ e.

(** Line 114. *)
Definition using_initial_triple e : bool :=
  negb (get2 (initial_triplet_ e) =? 0).
End Members.

(** ** Construction

    The constructor is declared at lines 42-45 and defined outside the
    header.  Three members carry a default member initializer in the class
    body (lines 146, 148 and 150); the others receive whatever the
    constructor stores in them, collected here in [ctor_stores].  The
    constructor is taken not to overwrite the three initialized members. *)
Record ctor_stores : Type := mkCtorStores {
  st_html_doc_stream : pointer;
  st_sLogging_file : string;
  st_multiview_match_constraint : MultiviewMatchConstraint.t;
  st_initial_triplet : Triplet;
  st_initial_pair : Pair;
  st_cam_type : cameras.EINTRINSIC;
  st_features_provider : pointer;
  st_matches_provider : pointer;
  st_map_tracks : STLMAPTracks;
  st_shared_track_visibility_helper : pointer;
  st_map_ACThreshold : gmap IndexT Q;
  st_set_remaining_view_id : gset IndexT
}.

Definition construct (sfm_data : SfM_Data) (soutDirectory : string)
    (st : ctor_stores) : engine :=
  {| base_ := mkReconstructionEngine sfm_data soutDirectory;
     html_doc_stream_ := st_html_doc_stream st;
     sLogging_file_ := st_sLogging_file st;
     multiview_match_constraint_ := st_multiview_match_constraint st;
     initial_triplet_ := st_initial_triplet st;
     initial_pair_ := st_initial_pair st;
     cam_type_ := st_cam_type st;
     features_provider_ := st_features_provider st;
     matches_provider_ := st_matches_provider st;
     map_tracks_ := st_map_tracks st;
     shared_track_visibility_helper_ := st_shared_track_visibility_helper st;
     map_ACThreshold_ := st_map_ACThreshold st;
     set_remaining_view_id_ := st_set_remaining_view_id st;
     triangulation_method_ := ETriangulationMethod.DEFAULT;
     resection_method_ := resection.DEFAULT;
     maximum_trifocal_ransac_iterations_ :=
       maximum_trifocal_ransac_iterations_DEFAULT |}.

(** ** Calls of the configuration interface

    A use of the public configuration interface is a sequence of setter
    calls; [config_call] names one call with its argument. *)
Inductive config_call : Type :=
| CallSetMultiviewMatchConstraint (c : MultiviewMatchConstraint.t)
| CallsetInitialPair (initialPair : Pair)
| CallsetInitialTriplet (initialTriplet : Triplet)
| CallSetUnknownCameraType (camType : cameras.EINTRINSIC)
| CallSetTriangulationMethod (method : ETriangulationMethod.t)
| CallSetResectionMethod (method : resection.SolverType)
| CallSetMaximumTrifocalRansacIterations (n : unsigned).

Definition do_call (c : config_call) (e : engine) : engine :=
  match c with
  | CallSetMultiviewMatchConstraint c => SetMultiviewMatchConstraint c e
  | CallsetInitialPair p => setInitialPair p e
  | CallsetInitialTriplet t => setInitialTriplet t e
  | CallSetUnknownCameraType k => SetUnknownCameraType k e
  | CallSetTriangulationMethod m => SetTriangulationMethod m e
  | CallSetResectionMethod m => SetResectionMethod m e
  | CallSetMaximumTrifocalRansacIterations n =>
      SetMaximumTrifocalRansacIterations n e
  end.

(** The calls are made in the order of the list. *)
Definition do_calls (cs : list config_call) (e : engine) : engine :=
  fold_left (fun acc c => do_call c acc) cs e.

Definition sets_trifocal_iterations (c : config_call) : bool :=
  match c with
  | CallSetMaximumTrifocalRansacIterations _ => true
  | _ => false
  end.

(** ** The members as an indexed family

    [field] names every member of the engine state, [field_type] gives its
    type and [get] reads it; [same_but] relates two states that agree on
    every member other than the named one. *)
Inductive field : Type :=
| F_base
| F_html_doc_stream
| F_sLogging_file
| F_multiview_match_constraint
| F_initial_triplet
| F_initial_pair
| F_cam_type
| F_features_provider
| F_matches_provider
| F_map_tracks
| F_shared_track_visibility_helper
| F_map_ACThreshold
| F_set_remaining_view_id
| F_triangulation_method
| F_resection_method
| F_maximum_trifocal_ransac_iterations.

Definition field_type (f : field) : Type :=
  match f with
  | F_base => ReconstructionEngine
  | F_html_doc_stream => pointer
  | F_sLogging_file => string
  | F_multiview_match_constraint => MultiviewMatchConstraint.t
  | F_initial_triplet => Triplet
  | F_initial_pair => Pair
  | F_cam_type => cameras.EINTRINSIC
  | F_features_provider => pointer
  | F_matches_provider => pointer
  | F_map_tracks => STLMAPTracks
  | F_shared_track_visibility_helper => pointer
  | F_map_ACThreshold => gmap IndexT Q
  | F_set_remaining_view_id => gset IndexT
  | F_triangulation_method => ETriangulationMethod.t
  | F_resection_method => resection.SolverType
  | F_maximum_trifocal_ransac_iterations => unsigned
  end.

Definition get (f : field) : engine -> field_type f :=
  match f with
  | F_base => base_
  | F_html_doc_stream => html_doc_stream_
  | F_sLogging_file => sLogging_file_
  | F_multiview_match_constraint => multiview_match_constraint_
  | F_initial_triplet => initial_triplet_
  | F_initial_pair => initial_pair_
  | F_cam_type => cam_type_
  | F_features_provider => features_provider_
  | F_matches_provider => matches_provider_
  | F_map_tracks => map_tracks_
  | F_shared_track_visibility_helper => shared_track_visibility_helper_
  | F_map_ACThreshold => map_ACThreshold_
  | F_set_remaining_view_id => set_remaining_view_id_
  | F_triangulation_method => triangulation_method_
  | F_resection_method => resection_method_
  | F_maximum_trifocal_ransac_iterations =>
      maximum_trifocal_ransac_iterations_
  end.

Definition same_but (f : field) (e e' : engine) : Prop :=
  forall g : field, g <> f -> get g e' = get g e.

(** The member a configuration call is meant to write. *)
Definition target (c : config_call) : field :=
  match c with
  | CallSetMultiviewMatchConstraint _ => F_multiview_match_constraint
  | CallsetInitialPair _ => F_initial_pair
  | CallsetInitialTriplet _ => F_initial_triplet
  | CallSetUnknownCameraType _ => F_cam_type
  | CallSetTriangulationMethod _ => F_triangulation_method
  | CallSetResectionMethod _ => F_resection_method
  | CallSetMaximumTrifocalRansacIterations _ =>
      F_maximum_trifocal_ransac_iterations
  end.

(** A concrete engine for the examples: three views, nothing configured. *)
Definition sample_scene : SfM_Data :=
  {| views := {[ 0; 1; 2 ]}; registered_views := ∅ |}.

Definition sample_engine : engine :=
  construct sample_scene "out"
    {| st_html_doc_stream := None;
       st_sLogging_file := "";
       st_multiview_match_constraint := MultiviewMatchConstraint.UNCONSTRAINED;
       st_initial_triplet := (0, 0, 0);
       st_initial_pair := (0, 0);
       st_cam_type := cameras.PINHOLE_RADIAL_K3;
       st_features_provider := None;
       st_matches_provider := None;
       st_map_tracks := ∅;
       st_shared_track_visibility_helper := None;
       st_map_ACThreshold := ∅;
       st_set_remaining_view_id := {[ 0; 1; 2 ]} |}.

(** ** Reading a sequence of configuration calls

    [field] has decidable equality; [targets f c] tells whether the call
    [c] writes member [f], [written c] is the value it stores there, and
    [is_configuration f] tells whether some setter of lines 52-88 writes
    [f]. *)
#[global] Instance field_eq_dec : EqDecision field.
Proof. solve_decision. Defined.

Definition targets (f : field) (c : config_call) : bool :=
  bool_decide (target c = f).

Definition written (c : config_call) : field_type (target c) :=
  match c with
  | CallSetMultiviewMatchConstraint c => c
  | CallsetInitialPair p => p
  | CallsetInitialTriplet t => t
  | CallSetUnknownCameraType k => k
  | CallSetTriangulationMethod m => m
  | CallSetResectionMethod m => m
  | CallSetMaximumTrifocalRansacIterations n => n
  end.

Definition is_configuration (f : field) : bool :=
  match f with
  | F_multiview_match_constraint
  | F_initial_triplet
  | F_initial_pair
  | F_cam_type
  | F_triangulation_method
  | F_resection_method
  | F_maximum_trifocal_ransac_iterations => true
  | _ => false
  end.

(** ** The engine driver

    The member functions that drive a reconstruction (the initializer, the
    resection loop, the final refinement) are declared in the header or in
    the derived engine and defined elsewhere.  The driver below follows the
    state machine of the specification; the geometric collaborators are
    black boxes whose outcome reaches the driver as an [event]. *)
Module Driver.

(** Modelled from the spec: the states of the engine driver, "INIT,
    SEED_READY, RECONSTRUCTING, FINALIZING, DONE, with FAILED as a
    terminal state"; the driver itself is not among the sources. *)
Inductive State : Type :=
| INIT
| SEED_READY
| RECONSTRUCTING
| FINALIZING
| DONE
| FAILED.

(** Modelled from the spec: the seed of the seed selector, "pair (a, b)
    with a <> b, or triplet (a, b, c) with distinct entries"; the selector
    is not among the sources. *)
Inductive Seed : Type :=
| SeedPair (p : Pair)
| SeedTriplet (t : Triplet).

(** Modelled from the spec: the views of a seed. *)
Definition seed_views (s : Seed) : gset IndexT :=
  match s with
  | SeedPair (a, b) => {[ a; b ]}
  | SeedTriplet (a, b, c) => {[ a; b; c ]}
  end.

(** Modelled from the spec: the entries of a seed are distinct. *)
Definition seed_distinct (s : Seed) : bool :=
  match s with
  | SeedPair (a, b) => negb (a =? b)
  | SeedTriplet (a, b, c) =>
      negb (a =? b) && negb (a =? c) && negb (b =? c)
  end.

(** Modelled from the spec: the state of a run, which is the engine with
    its Remaining-View Set ([set_remaining_view_id_], line 144), its tracks
    ([map_tracks_], line 137) and the registered views of its scene, the
    state of the driver, the views dropped for having zero usable tracks,
    the views handed to the resector so far, in order, and the configured
    threshold L_seed of the initializer, the least number of landmarks a
    seed must leave. *)
Record t : Type := mk {
  state : State;
  eng : engine;
  dropped : gset IndexT;
  resection_attempts : list IndexT;
  L_seed : nat
}.

(** Modelled from the spec: the Remaining-View Set, the Registered-View
    Set and the original view set of a run. *)
Definition remaining (d : t) : gset IndexT :=
  set_remaining_view_id_ (eng d).
Definition registered (d : t) : gset IndexT :=
  registered_views (sfm_data_ (base_ (eng d))).
Definition original (d : t) : gset IndexT :=
  views (sfm_data_ (base_ (eng d))).

(** Modelled from the spec: a write to the Remaining-View Set and to the
    Registered-View Set of the engine, every other member kept. *)
Definition with_sets (rem reg : gset IndexT) (e : engine) : engine :=
  mkEngine
    (mkReconstructionEngine
       (mkSfM_Data (views (sfm_data_ (base_ e))) reg)
       (sOut_directory_ (base_ e)))
    (html_doc_stream_ e) (sLogging_file_ e)
    (multiview_match_constraint_ e) (initial_triplet_ e) (initial_pair_ e)
    (cam_type_ e)
    (features_provider_ e) (matches_provider_ e) (map_tracks_ e)
    (shared_track_visibility_helper_ e) (map_ACThreshold_ e)
    rem
    (triangulation_method_ e) (resection_method_ e)
    (maximum_trifocal_ransac_iterations_ e).

(** Modelled from the spec: the output of the track builder, a "mapping
    trackId -> {viewId -> featureIdx}", is stored in [map_tracks_], every
    other member kept. *)
Definition with_tracks (tracks : gmap N (gmap N N)) (e : engine) : engine :=
  mkEngine (base_ e)
    (html_doc_stream_ e) (sLogging_file_ e)
    (multiview_match_constraint_ e) (initial_triplet_ e) (initial_pair_ e)
    (cam_type_ e)
    (features_provider_ e) (matches_provider_ e)
    tracks
    (shared_track_visibility_helper_ e) (map_ACThreshold_ e)
    (set_remaining_view_id_ e)
    (triangulation_method_ e) (resection_method_ e)
    (maximum_trifocal_ransac_iterations_ e).

(** Modelled from the spec: the views with a usable track, which are the
    views that some track observes. *)
Definition tracked_views (tracks : gmap N (gmap N N)) : gset IndexT :=
  ⋃ ((dom : gmap N N -> gset IndexT) <$> (map_to_list tracks).*2).

(** Modelled from the spec: the tracks shared by the views [vs] of a
    seed, the ones the initializer triangulates ("triangulate all shared
    tracks", "three-view tracks"). *)
Definition shared_tracks (vs : gset IndexT) (tracks : gmap N (gmap N N))
    : gmap N (gmap N N) :=
  filter (fun kt => vs ⊆ dom kt.2) tracks.

(** Modelled from the spec: the landmarks a seed leaves, which are the
    shared tracks whose point [survived] the checks of the initializer
    (reprojection error, triangulation angle, local bundle adjustment). *)
Definition seed_landmarks (vs : gset IndexT) (survived : gset N)
    (tracks : gmap N (gmap N N)) : gmap N (gmap N N) :=
  filter (fun kt => kt.1 ∈ survived) (shared_tracks vs tracks).

(** Modelled from the spec: "add the view to the registered set ... and
    remove it from the Remaining-View Set" (resector, and the initializer
    for the seed views). *)
Definition register_views (vs : gset IndexT) (d : t) : t :=
  mk (state d)
     (with_sets (remaining d ∖ vs) (registered d ∪ vs) (eng d))
     (dropped d) (resection_attempts d) (L_seed d).

(** Modelled from the spec: the rollback of a registration puts the two
    sets back as they were in the state [before] the attempt, which adds
    back to the Remaining-View Set the views the attempt had removed
    ("views may be added back only when rollback occurs during
    initialization"). *)
Definition rollback_to (before d : t) : t :=
  mk (state d)
     (with_sets (remaining before) (registered before) (eng d))
     (dropped d) (resection_attempts d) (L_seed d).

(** Modelled from the spec: views without a usable track leave the
    Remaining-View Set and are recorded as dropped. *)
Definition drop_views (vs : gset IndexT) (d : t) : t :=
  mk (state d)
     (with_sets (remaining d ∖ vs) (registered d) (eng d))
     (dropped d ∪ (vs ∩ remaining d)) (resection_attempts d) (L_seed d).

(** Modelled from the spec: the tracks are built and stored in the
    engine, and the views of the scene that no track observes are
    dropped. *)
Definition build_tracks (tracks : gmap N (gmap N N)) (d : t) : t :=
  drop_views (original d ∖ tracked_views tracks)
    (mk (state d) (with_tracks tracks (eng d))
        (dropped d) (resection_attempts d) (L_seed d)).

(** Modelled from the spec: a change of state of the driver, the
    reconstruction kept. *)
Definition goto (s : State) (d : t) : t :=
  mk s (eng d) (dropped d) (resection_attempts d) (L_seed d).

(** Modelled from the spec: the candidates of a batch are handed to the
    resector, which is recorded. *)
Definition attempt (vs : list IndexT) (d : t) : t :=
  mk (state d) (eng d) (dropped d) (resection_attempts d ++ vs) (L_seed d).

(** Modelled from the spec: what the collaborators report to the driver
    in one transition.
    - [SeedChosen tracks]: the track builder returned [tracks], the
      visibility index is ready and a seed is chosen.
    - [Initialized s pose_ok survived exhausted]: the initializer ran on
      seed [s]; [pose_ok] tells whether the relative pose was estimated
      (not degenerate), [survived] are the tracks whose triangulated point
      passed the checks, and [exhausted] tells whether no further seed is
      left after a failure.
    - [Scheduled cand loc refined]: the resection scheduler returned the
      candidates [cand]; [loc] are the views the resector localizes and
      [refined] tells whether the incremental refinement succeeded.
    - [Refined]: the final refinement converged.
    - [Fatal]: a fatal error. *)
Inductive event : Type :=
| SeedChosen (tracks : gmap N (gmap N N))
| Initialized (s : Seed) (pose_ok : bool) (survived : gset N)
    (exhausted : bool)
| Scheduled (candidates : list IndexT) (localized : gset IndexT)
    (refined : bool)
| Refined
| Fatal.

(** Modelled from the spec: the initializer.  A seed is "validated
    against the view set": one with duplicate or unknown view identifiers
    is a configuration error, which is fatal.  Otherwise the seed views
    are registered and the shared tracks triangulated; the initializer
    "succeeds only if >= L_seed landmarks survive", and fails as well on a
    degenerate relative pose.  On failure the registration is rolled back
    and the driver goes on with another seed, or fails when none is
    left. *)
Definition initialize (s : Seed) (pose_ok : bool) (survived : gset N)
    (exhausted : bool) (d : t) : t :=
  if seed_distinct s && bool_decide (seed_views s ⊆ original d) then
    let d1 := register_views (seed_views s) d in
    let landmarks :=
      seed_landmarks (seed_views s) survived (map_tracks_ (eng d)) in
    if pose_ok && (L_seed d <=? size landmarks)%nat
    then goto RECONSTRUCTING d1
    else goto (if exhausted then FAILED else SEED_READY) (rollback_to d d1)
  else goto FAILED d.

(** Modelled from the spec: one round of the resection loop.  An empty
    candidate list ends the loop.  Otherwise the candidates are handed to
    the resector and the localized ones among the remaining views are
    registered; when the refinement fails, the state before the batch is
    restored. *)
Definition resect (candidates : list IndexT) (localized : gset IndexT)
    (refined : bool) (d : t) : t :=
  match candidates with
  | [] => goto FINALIZING d
  | _ :: _ =>
      let d1 := attempt candidates d in
      if refined then
        register_views (list_to_set candidates ∩ localized ∩ remaining d) d1
      else d1
  end.

(** Modelled from the spec: the transitions of the state machine.  An
    event that the current state does not wait for changes nothing. *)
Definition step (ev : event) (d : t) : t :=
  match ev, state d with
  | Fatal, _ => goto FAILED d
  | SeedChosen tracks, INIT => goto SEED_READY (build_tracks tracks d)
  | Initialized s pose_ok survived exhausted, SEED_READY =>
      initialize s pose_ok survived exhausted d
  | Scheduled cand loc refined, RECONSTRUCTING => resect cand loc refined d
  | Refined, FINALIZING => goto DONE d
  | _, _ => d
  end.

(** Modelled from the spec: a run of the driver; the events are handled in
    the order of the list. *)
Definition run (evs : list event) (d : t) : t :=
  fold_left (fun acc ev => step ev acc) evs d.

(** Modelled from the spec: the start of a run with the threshold
    [l_seed].  No view is registered, so every view of the scene is
    remaining, and none is dropped. *)
Definition start (e : engine) (l_seed : nat) : t :=
  mk INIT (with_sets (views (sfm_data_ (base_ e))) ∅ e) ∅ [] l_seed.





(** The states in which the resection loop has been left. *)
Definition loop_left (s : State) : bool :=
  match s with
  | FINALIZING | DONE | FAILED => true
  | INIT | SEED_READY | RECONSTRUCTING => false
  end.

(** Two tracks seen by views 0 and 1; view 2 of the sample scene is seen
    by no track. *)
Definition sample_tracks : gmap N (gmap N N) :=
  {[ 0 := {[ 0 := 0; 1 := 0 ]}; 1 := {[ 0 := 1; 1 := 1 ]} ]}.

(** A run on the sample engine up to the resection loop: view 2 has no
    usable track, views 0 and 1 are the seed and both shared tracks leave
    a landmark. *)
Definition sample_reconstructing : t :=
  run [ SeedChosen sample_tracks;
        Initialized (SeedPair (0, 1)) true {[ 0; 1 ]} false ]
      (start sample_engine 2).

End Driver.


Ltac frame_of_setter :=
  split;
  [ reflexivity
  | intros g Hg; destruct g; first [reflexivity | congruence] ].

(** * Properties of the configuration interface *)

Section Comparisons.

Lemma Pair_eq_spec (a b : Pair) : Pair_eq a b = true <-> a = b.
Proof.
  destruct a as [a1 a2], b as [b1 b2]; unfold Pair_eq; simpl.
  rewrite andb_true_iff, !N.eqb_eq.
  split; [intros [-> ->]; reflexivity | intros [= -> ->]; auto].
Qed.

Lemma Pair_ne_spec (a b : Pair) : Pair_ne a b = true <-> a <> b.
Proof.
  unfold Pair_ne. rewrite negb_true_iff, <- not_true_iff_false.
  apply not_iff_compat, Pair_eq_spec.
Qed.

Lemma Triplet_eq_spec (a b : Triplet) : Triplet_eq a b = true <-> a = b.
Proof.
  destruct a as [[a1 a2] a3], b as [[b1 b2] b3]; unfold Triplet_eq; simpl.
  rewrite !andb_true_iff, !N.eqb_eq.
  split; [intros [[-> ->] ->]; reflexivity | intros [= -> -> ->]; auto].
Qed.

Lemma Triplet_ne_spec (a b : Triplet) : Triplet_ne a b = true <-> a <> b.
Proof.
  unfold Triplet_ne. rewrite negb_true_iff, <- not_true_iff_false.
  apply not_iff_compat, Triplet_eq_spec.
Qed.

Lemma using_initial_triple_spec (e : engine) :
  using_initial_triple e = true <-> get2 (initial_triplet_ e) <> 0.
Proof.
  unfold using_initial_triple.
  rewrite negb_true_iff, N.eqb_neq. reflexivity.
Qed.

End Comparisons.

(** C1, as the code has it.  A pair set by [setInitialPair] is reported by
    [hasInitialPair] exactly when it differs from (0,0), and a triplet set
    by [setInitialTriplet] is reported by [hasInitialTriplet] exactly when
    it differs from (0,0,0).  [using_initial_triple] looks at the third
    entry alone: it returns true exactly when that entry is not 0, so both
    triplet queries return true exactly when the third entry is not 0. *)
Theorem seed_sentinel (p : Pair) (t : Triplet) (e : engine) :
  (hasInitialPair (setInitialPair p e) = true <-> p <> (0, 0))
  /\ (hasInitialTriplet (setInitialTriplet t e) = true <-> t <> (0, 0, 0))
  /\ (using_initial_triple (setInitialTriplet t e) = true <-> get2 t <> 0)
  /\ (hasInitialTriplet (setInitialTriplet t e) = true
      /\ using_initial_triple (setInitialTriplet t e) = true
      <-> get2 t <> 0).
Proof.
  assert (Hp : hasInitialPair (setInitialPair p e) = true <-> p <> (0, 0))
    by apply Pair_ne_spec.
  assert (Ht : hasInitialTriplet (setInitialTriplet t e) = true
               <-> t <> (0, 0, 0)) by apply Triplet_ne_spec.
  assert (Hu : using_initial_triple (setInitialTriplet t e) = true
               <-> get2 t <> 0) by apply using_initial_triple_spec.
  assert (H0 : get2 t <> 0 -> t <> (0, 0, 0))
    by (intros H3 ->; apply H3; reflexivity).
  split; [exact Hp |]. split; [exact Ht |]. split; [exact Hu |].
  split.
  - intros [_ H]. apply Hu, H.
  - intros H. split; [apply Ht, H0, H | apply Hu, H].
Qed.

(** C1, as the claim words it, fails on the triplet (1,2,0): it is not the
    zero triplet, [hasInitialTriplet] returns true for it, and
    [using_initial_triple] returns false. *)
Lemma seed_sentinel_triplet_third_zero :
  let e := setInitialTriplet (1, 2, 0) sample_engine in
  ~ (hasInitialTriplet e = true /\ using_initial_triple e = true
     <-> ((1, 2, 0) : Triplet) <> (0, 0, 0)).
Proof.
  intros e [_ H].
  assert (Hne : ((1, 2, 0) : Triplet) <> (0, 0, 0)) by discriminate.
  destruct (H Hne) as [_ Hu]. vm_compute in Hu. discriminate Hu.
Qed.

Lemma do_calls_app (cs1 cs2 : list config_call) (e : engine) :
  do_calls (cs1 ++ cs2) e = do_calls cs2 (do_calls cs1 e).
Proof. unfold do_calls. apply fold_left_app. Qed.

Lemma do_call_keeps_iterations (c : config_call) (e : engine) :
  sets_trifocal_iterations c = false ->
  MaximumTrifocalRansacIterations (do_call c e)
  = MaximumTrifocalRansacIterations e.
Proof. destruct c; simpl; intros H; [reflexivity .. | discriminate H]. Qed.

Lemma do_calls_keep_iterations (cs : list config_call) (e : engine) :
  existsb sets_trifocal_iterations cs = false ->
  MaximumTrifocalRansacIterations (do_calls cs e)
  = MaximumTrifocalRansacIterations e.
Proof.
  revert e; induction cs as [| c cs IH]; intros e H; [reflexivity |].
  simpl in H. apply orb_false_iff in H as [Hc Hcs].
  change (do_calls (c :: cs) e) with (do_calls cs (do_call c e)).
  rewrite IH by assumption. apply do_call_keeps_iterations, Hc.
Qed.

(** C3.  On an engine as the constructor leaves it, and after any sequence
    of configuration calls none of which is
    [SetMaximumTrifocalRansacIterations],
    [MaximumTrifocalRansacIterations] returns 100. *)
Theorem default_trifocal_iterations
    (sfm_data : SfM_Data) (soutDirectory : string) (st : ctor_stores)
    (cs : list config_call) :
  existsb sets_trifocal_iterations cs = false ->
  MaximumTrifocalRansacIterations
    (do_calls cs (construct sfm_data soutDirectory st)) = 100.
Proof.
  intros H. rewrite do_calls_keep_iterations by exact H. reflexivity.
Qed.

Lemma default_trifocal_iterations_witness :
  let cs := [ CallsetInitialPair (1, 2);
              CallSetTriangulationMethod ETriangulationMethod.L1_ANGULAR;
              CallSetUnknownCameraType cameras.PINHOLE_BROWN ] in
  existsb sets_trifocal_iterations cs = false
  /\ MaximumTrifocalRansacIterations (do_calls cs sample_engine) = 100.
Proof.
  intros cs. split; [reflexivity |].
  unfold sample_engine. apply default_trifocal_iterations. reflexivity.
Defined.

(** C4.  After [SetMultiviewMatchConstraint c], [UseOrientedConstraint]
    returns true if and only if [c] is ORIENTATION; the only other value,
    UNCONSTRAINED, gives false. *)
Theorem oriented_iff_ORIENTATION (c : MultiviewMatchConstraint.t) (e : engine) :
  (UseOrientedConstraint (SetMultiviewMatchConstraint c e) = true
   <-> c = MultiviewMatchConstraint.ORIENTATION)
  /\ (UseOrientedConstraint (SetMultiviewMatchConstraint c e) = false
      <-> c = MultiviewMatchConstraint.UNCONSTRAINED).
Proof.
  destruct c; cbn; split; split; intros H;
    first [reflexivity | discriminate H].
Qed.

(** C5.  [MaximumTrifocalRansacIterations] after
    [SetMaximumTrifocalRansacIterations n] returns [n], and each of the six
    other setters leaves the value returned unchanged. *)
Theorem trifocal_iterations_round_trip (n : unsigned) (e : engine) :
  MaximumTrifocalRansacIterations (SetMaximumTrifocalRansacIterations n e) = n
  /\ (forall c, MaximumTrifocalRansacIterations
                  (SetMultiviewMatchConstraint c e)
                = MaximumTrifocalRansacIterations e)
  /\ (forall p, MaximumTrifocalRansacIterations (setInitialPair p e)
                = MaximumTrifocalRansacIterations e)
  /\ (forall t, MaximumTrifocalRansacIterations (setInitialTriplet t e)
                = MaximumTrifocalRansacIterations e)
  /\ (forall k, MaximumTrifocalRansacIterations (SetUnknownCameraType k e)
                = MaximumTrifocalRansacIterations e)
  /\ (forall m, MaximumTrifocalRansacIterations (SetTriangulationMethod m e)
                = MaximumTrifocalRansacIterations e)
  /\ (forall m, MaximumTrifocalRansacIterations (SetResectionMethod m e)
                = MaximumTrifocalRansacIterations e).
Proof. repeat split. Qed.

(** C9.  On an engine as the constructor leaves it, the triangulation
    method is the DEFAULT variant of [ETriangulationMethod] and the
    resection method the DEFAULT variant of [resection::SolverType]. *)
Theorem construct_default_methods
    (sfm_data : SfM_Data) (soutDirectory : string) (st : ctor_stores) :
  triangulation_method_ (construct sfm_data soutDirectory st)
  = ETriangulationMethod.DEFAULT
  /\ resection_method_ (construct sfm_data soutDirectory st)
     = resection.DEFAULT.
Proof. split; reflexivity. Qed.

(** The sixteen names of [field] are all the members: two engines that
    agree on each of them are equal. *)
Lemma engine_ext (e1 e2 : engine) :
  (forall f, get f e1 = get f e2) -> e1 = e2.
Proof.
  intros H. destruct e1, e2.
  pose proof (H F_base); pose proof (H F_html_doc_stream);
  pose proof (H F_sLogging_file); pose proof (H F_multiview_match_constraint);
  pose proof (H F_initial_triplet); pose proof (H F_initial_pair);
  pose proof (H F_cam_type); pose proof (H F_features_provider);
  pose proof (H F_matches_provider); pose proof (H F_map_tracks);
  pose proof (H F_shared_track_visibility_helper);
  pose proof (H F_map_ACThreshold); pose proof (H F_set_remaining_view_id);
  pose proof (H F_triangulation_method); pose proof (H F_resection_method);
  pose proof (H F_maximum_trifocal_ransac_iterations).
  simpl in *. subst. reflexivity.
Qed.

(** C10.  Each of the seven configuration setters stores its argument in
    one member and leaves the fifteen other members of the engine state,
    the base-class part included, as they were. *)
Theorem setters_write_one_field (e : engine) :
  (forall c, get F_multiview_match_constraint
               (SetMultiviewMatchConstraint c e) = c
             /\ same_but F_multiview_match_constraint e
                  (SetMultiviewMatchConstraint c e))
  /\ (forall p, get F_initial_pair (setInitialPair p e) = p
                /\ same_but F_initial_pair e (setInitialPair p e))
  /\ (forall t, get F_initial_triplet (setInitialTriplet t e) = t
                /\ same_but F_initial_triplet e (setInitialTriplet t e))
  /\ (forall k, get F_cam_type (SetUnknownCameraType k e) = k
                /\ same_but F_cam_type e (SetUnknownCameraType k e))
  /\ (forall m, get F_triangulation_method (SetTriangulationMethod m e) = m
                /\ same_but F_triangulation_method e
                     (SetTriangulationMethod m e))
  /\ (forall m, get F_resection_method (SetResectionMethod m e) = m
                /\ same_but F_resection_method e (SetResectionMethod m e))
  /\ (forall n, get F_maximum_trifocal_ransac_iterations
                  (SetMaximumTrifocalRansacIterations n e) = n
                /\ same_but F_maximum_trifocal_ransac_iterations e
                     (SetMaximumTrifocalRansacIterations n e)).
Proof.
  repeat apply conj; intros x; frame_of_setter.
Qed.

Lemma setters_write_one_field_witness :
  get F_initial_pair (setInitialPair (1, 2) sample_engine) = (1, 2)
  /\ F_cam_type <> F_initial_pair
  /\ get F_cam_type (setInitialPair (1, 2) sample_engine)
     = get F_cam_type sample_engine.
Proof.
  destruct (setters_write_one_field sample_engine) as (_ & Hp & _).
  destruct (Hp (1, 2)) as [Hw Hframe].
  split; [exact Hw |].
  split; [discriminate |].
  apply Hframe. discriminate.
Defined.

(** * Properties of the engine driver *)

Module DriverFacts.
Import Driver.

#[local] Set Warnings "-clear-no-such-hyp".

Implicit Types (d : t) (ev : event) (evs : list event).
Implicit Types (vs : gset IndexT).

Lemma run_app evs1 evs2 d : run (evs1 ++ evs2) d = run evs2 (run evs1 d).
Proof. unfold run. apply fold_left_app. Qed.

Lemma run_cons ev evs d : run (ev :: evs) d = run evs (step ev d).
Proof. reflexivity. Qed.

(** ** Tracks and the views they observe *)



(** ** The threshold, the scene and the tracks through a run *)

Lemma L_seed_step ev d : L_seed (step ev d) = L_seed d.
Proof.
  unfold step, initialize, resect.
  destruct ev, (state d); try reflexivity.
  - destruct (seed_distinct s && _); [| reflexivity].
    destruct (pose_ok && _); reflexivity.
  - destruct candidates, refined; reflexivity.
Qed.

Lemma L_seed_run evs d : L_seed (run evs d) = L_seed d.
Proof.
  revert d; induction evs as [| ev evs IH]; intros d; [reflexivity |].
  rewrite run_cons, IH. apply L_seed_step.
Qed.



(** ** The Remaining-View Set never grows *)

Lemma remaining_rollback_to (before : t) vs :
  remaining (rollback_to before (register_views vs before))
  = remaining (register_views vs before) ∪ (vs ∩ remaining before).
Proof.
  unfold rollback_to, register_views, remaining; simpl.
  apply set_eq; intros x.
  rewrite elem_of_union, elem_of_difference, elem_of_intersection.
  destruct (decide (x ∈ vs)); tauto.
Qed.





(** ** What every run keeps *)









(** ** What a run keeps when the threshold is positive *)








(** ** After the resection loop *)

Lemma step_loop_left ev d :
  loop_left (state d) = true ->
  loop_left (state (step ev d)) = true
  /\ resection_attempts (step ev d) = resection_attempts d.
Proof.
  unfold step. destruct ev, (state d) eqn:Hs; simpl; intros H;
    try discriminate H; rewrite ?Hs; split; reflexivity.
Qed.

Lemma run_loop_left evs d :
  loop_left (state d) = true ->
  loop_left (state (run evs d)) = true
  /\ resection_attempts (run evs d) = resection_attempts d.
Proof.
  revert d; induction evs as [| ev evs IH]; intros d H; [split; auto |].
  rewrite run_cons. destruct (step_loop_left ev d H) as [H1 H2].
  destruct (IH _ H1) as [H3 H4]. split; [exact H3 | congruence].
Qed.




(** C7.  When the driver is in RECONSTRUCTING and the scheduler returns
    no candidate, the next state is FINALIZING, not FAILED; the engine
    and the dropped views are kept as they are; and in the rest of the
    run, whatever is handled, no view is handed to the resector any more
    and the driver never is in RECONSTRUCTING again. *)
Theorem empty_schedule_finalizes d (localized : gset IndexT) (refined : bool) :
  state d = RECONSTRUCTING ->
  let d1 := step (Scheduled [] localized refined) d in
  state d1 = FINALIZING
  /\ state d1 <> FAILED
  /\ eng d1 = eng d
  /\ dropped d1 = dropped d
  /\ forall evs,
       resection_attempts (run evs d1) = resection_attempts d
       /\ state (run evs d1) <> RECONSTRUCTING.
Proof.
  intros Hs d1.
  assert (Hd1 : d1 = goto FINALIZING d)
    by (unfold d1, step; rewrite Hs; reflexivity).
  rewrite Hd1; simpl. repeat split; try discriminate.
  - destruct (run_loop_left evs (goto FINALIZING d) eq_refl) as [_ H].
    exact H.
  - destruct (run_loop_left evs (goto FINALIZING d) eq_refl) as [H _].
    intros Hr. rewrite Hr in H. discriminate H.
Qed.

Lemma empty_schedule_finalizes_witness :
  state sample_reconstructing = RECONSTRUCTING
  /\ state (step (Scheduled [] ∅ true) sample_reconstructing) = FINALIZING.
Proof.
  assert (H : state sample_reconstructing = RECONSTRUCTING)
    by (vm_compute; reflexivity).
  split; [exact H |].
  exact (proj1 (empty_schedule_finalizes sample_reconstructing ∅ true H)).
Defined.

End DriverFacts.

(** * Sequences of configuration calls *)

Section CallSequences.
Implicit Types (c : config_call) (cs : list config_call).
Implicit Types (e : engine) (f : field).

Lemma do_calls_cons c cs e : do_calls (c :: cs) e = do_calls cs (do_call c e).
Proof. reflexivity. Qed.

Lemma targets_true f c : targets f c = true <-> target c = f.
Proof. unfold targets. apply bool_decide_eq_true. Qed.

Lemma targets_false f c : targets f c = false <-> target c <> f.
Proof. unfold targets. apply bool_decide_eq_false. Qed.

Lemma target_is_configuration c : is_configuration (target c) = true.
Proof. destruct c; reflexivity. Qed.

Lemma other_member_untargeted f cs :
  is_configuration f = false -> existsb (targets f) cs = false.
Proof.
  intros Hf. induction cs as [| c cs IH]; [reflexivity |].
  simpl. rewrite IH, orb_false_r. apply targets_false.
  intros Hc. rewrite <- Hc, target_is_configuration in Hf. discriminate Hf.
Qed.

(** One call: the member it targets receives the argument, every other
    member is kept. *)
Lemma do_call_written c e : get (target c) (do_call c e) = written c.
Proof. destruct c; reflexivity. Qed.

Lemma do_call_frame f c e : target c <> f -> get f (do_call c e) = get f e.
Proof.
  destruct c, f; intros H;
    first [reflexivity | exfalso; apply H; reflexivity].
Qed.

Lemma do_calls_frame f cs e :
  existsb (targets f) cs = false -> get f (do_calls cs e) = get f e.
Proof.
  revert e; induction cs as [| c cs IH]; intros e H; [reflexivity |].
  simpl in H. apply orb_false_iff in H as [Hc Hcs].
  rewrite do_calls_cons, IH by exact Hcs.
  apply do_call_frame, targets_false, Hc.
Qed.

(** What a call leaves in a member depends on what was in that member
    and on nothing else of the engine. *)
Lemma do_call_same_member f c e1 e2 :
  get f e1 = get f e2 -> get f (do_call c e1) = get f (do_call c e2).
Proof. destruct c, f; simpl; intros H; first [exact H | reflexivity]. Qed.

Lemma do_calls_same_member f cs e1 e2 :
  get f e1 = get f e2 -> get f (do_calls cs e1) = get f (do_calls cs e2).
Proof.
  revert e1 e2; induction cs as [| c cs IH]; intros e1 e2 H; [exact H |].
  rewrite !do_calls_cons. apply IH, do_call_same_member, H.
Qed.

Lemma do_call_forgets f c e1 e2 :
  target c = f -> get f (do_call c e1) = get f (do_call c e2).
Proof. intros <-. rewrite !do_call_written. reflexivity. Qed.

Lemma do_calls_forget f cs e1 e2 :
  existsb (targets f) cs = true ->
  get f (do_calls cs e1) = get f (do_calls cs e2).
Proof.
  revert e1 e2; induction cs as [| c cs IH]; intros e1 e2 H;
    [discriminate H |].
  rewrite !do_calls_cons. simpl in H.
  destruct (targets f c) eqn:Hc.
  - apply do_calls_same_member, do_call_forgets, targets_true, Hc.
  - apply IH, H.
Qed.

Lemma do_calls_commute_pair c1 c2 e :
  target c1 <> target c2 ->
  do_call c1 (do_call c2 e) = do_call c2 (do_call c1 e).
Proof.
  destruct c1, c2; intros H;
    first [reflexivity | exfalso; apply H; reflexivity].
Qed.

(** X1.  A member that none of the calls of a sequence targets has, after
    the sequence, the value it had before. *)
Theorem untargeted_member_kept f cs e :
  Forall (fun c => target c <> f) cs -> get f (do_calls cs e) = get f e.
Proof.
  intros H; revert e.
  induction H as [| c cs Hc _ IH]; intros e; [reflexivity |].
  rewrite do_calls_cons, IH. apply do_call_frame, Hc.
Qed.

Lemma untargeted_member_kept_witness :
  let cs := [ CallsetInitialTriplet (1, 2, 3);
              CallSetMaximumTrifocalRansacIterations 7 ] in
  Forall (fun c => target c <> F_initial_pair) cs
  /\ get F_initial_pair (do_calls cs (setInitialPair (4, 5) sample_engine))
     = (4, 5).
Proof.
  intros cs.
  assert (H : Forall (fun c => target c <> F_initial_pair) cs)
    by (repeat constructor; discriminate).
  split; [exact H |].
  rewrite (untargeted_member_kept F_initial_pair cs _ H). reflexivity.
Defined.

(** X2.  After a sequence of calls, a member holds the argument of the
    last call that targets it, whatever came before. *)
Theorem last_call_wins c cs cs' e :
  existsb (targets (target c)) cs' = false ->
  get (target c) (do_calls (cs ++ c :: cs') e) = written c.
Proof.
  intros H. rewrite do_calls_app, do_calls_cons.
  rewrite do_calls_frame by exact H. apply do_call_written.
Qed.

Lemma last_call_wins_witness :
  let cs := [ CallsetInitialPair (1, 2); CallsetInitialPair (3, 4) ] in
  let cs' := [ CallSetResectionMethod resection.EPNP ] in
  existsb (targets F_initial_pair) cs' = false
  /\ initial_pair_ (do_calls (cs ++ CallsetInitialPair (5, 6) :: cs')
                             sample_engine) = (5, 6).
Proof.
  intros cs cs'. split; [reflexivity |].
  apply (last_call_wins (CallsetInitialPair (5, 6)) cs cs' sample_engine).
  reflexivity.
Defined.

(** X3.  No sequence of configuration calls writes a member other than
    the seven configuration members: the base-class part with the scene,
    the logger and its file name, the two providers, the tracks, the
    visibility helper, the thresholds and the remaining views are kept. *)
Theorem calls_keep_other_members cs e :
  base_ (do_calls cs e) = base_ e
  /\ html_doc_stream_ (do_calls cs e) = html_doc_stream_ e
  /\ sLogging_file_ (do_calls cs e) = sLogging_file_ e
  /\ features_provider_ (do_calls cs e) = features_provider_ e
  /\ matches_provider_ (do_calls cs e) = matches_provider_ e
  /\ map_tracks_ (do_calls cs e) = map_tracks_ e
  /\ shared_track_visibility_helper_ (do_calls cs e)
     = shared_track_visibility_helper_ e
  /\ map_ACThreshold_ (do_calls cs e) = map_ACThreshold_ e
  /\ set_remaining_view_id_ (do_calls cs e) = set_remaining_view_id_ e.
Proof.
  pose proof (fun f Hf => do_calls_frame f cs e
                            (other_member_untargeted f cs Hf)) as H.
  repeat split.
  - exact (H F_base eq_refl).
  - exact (H F_html_doc_stream eq_refl).
  - exact (H F_sLogging_file eq_refl).
  - exact (H F_features_provider eq_refl).
  - exact (H F_matches_provider eq_refl).
  - exact (H F_map_tracks eq_refl).
  - exact (H F_shared_track_visibility_helper eq_refl).
  - exact (H F_map_ACThreshold eq_refl).
  - exact (H F_set_remaining_view_id eq_refl).
Qed.

(** X4.  Calls that target pairwise different members can be made in any
    order: two orderings of such calls leave the same engine. *)
Theorem distinct_calls_in_any_order cs cs' e :
  NoDup (target <$> cs) -> Permutation cs cs' ->
  do_calls cs e = do_calls cs' e.
Proof.
  intros Hnd Hp; revert e Hnd.
  induction Hp as [| c l l' _ IH | c1 c2 l | l l' l'' Hp1 IH1 Hp2 IH2];
    intros e Hnd.
  - reflexivity.
  - rewrite !do_calls_cons. apply IH.
    rewrite fmap_cons in Hnd. apply NoDup_cons in Hnd as [_ Hnd]. exact Hnd.
  - rewrite !do_calls_cons. f_equal. apply do_calls_commute_pair.
    rewrite !fmap_cons in Hnd. apply NoDup_cons in Hnd as [Hnotin _].
    intros Heq. apply Hnotin. rewrite Heq. apply list_elem_of_here.
  - rewrite IH1 by exact Hnd. apply IH2. rewrite <- Hp1. exact Hnd.
Qed.

Lemma distinct_calls_in_any_order_witness :
  let cs := [ CallsetInitialPair (1, 2);
              CallSetMaximumTrifocalRansacIterations 7;
              CallSetUnknownCameraType cameras.PINHOLE ] in
  NoDup (target <$> cs) /\ Permutation cs (rev cs)
  /\ do_calls cs sample_engine = do_calls (rev cs) sample_engine.
Proof.
  intros cs.
  assert (Hnd : NoDup (target <$> cs))
    by (apply (bool_decide_unpack _); vm_compute; exact I).
  assert (Hp : Permutation cs (rev cs)) by apply Permutation_rev.
  split; [exact Hnd |]. split; [exact Hp |].
  apply distinct_calls_in_any_order; assumption.
Defined.

(** X5.  A call whose member is targeted again later in the sequence has
    no effect on the result: it can be left out. *)
Theorem overwritten_call_is_dead c cs1 cs2 e :
  existsb (targets (target c)) cs2 = true ->
  do_calls (cs1 ++ c :: cs2) e = do_calls (cs1 ++ cs2) e.
Proof.
  intros H. rewrite !do_calls_app, do_calls_cons.
  apply engine_ext; intros f.
  destruct (decide (target c = f)) as [<- | Hne].
  - apply do_calls_forget, H.
  - apply do_calls_same_member, do_call_frame, Hne.
Qed.

Lemma overwritten_call_is_dead_witness :
  let cs1 := [ CallSetTriangulationMethod ETriangulationMethod.L1_ANGULAR ] in
  let cs2 := [ CallSetUnknownCameraType cameras.PINHOLE;
               CallsetInitialTriplet (4, 5, 6) ] in
  existsb (targets F_initial_triplet) cs2 = true
  /\ do_calls (cs1 ++ CallsetInitialTriplet (1, 2, 3) :: cs2) sample_engine
     = do_calls (cs1 ++ cs2) sample_engine.
Proof.
  intros cs1 cs2. split; [reflexivity |].
  apply (overwritten_call_is_dead (CallsetInitialTriplet (1, 2, 3))).
  reflexivity.
Defined.

(** X6.  Making the same sequence of configuration calls a second time
    changes nothing. *)
Theorem calls_twice_as_once cs e :
  do_calls cs (do_calls cs e) = do_calls cs e.
Proof.
  apply engine_ext; intros f.
  destruct (existsb (targets f) cs) eqn:H.
  - apply do_calls_forget, H.
  - rewrite !do_calls_frame by exact H. reflexivity.
Qed.

(** X7.  Each query reads one member: [hasInitialPair] is not changed by
    calls that leave the initial pair alone (setting a triplet does not set
    a pair), [hasInitialTriplet] and [using_initial_triple] are not changed
    by calls that leave the initial triplet alone, and
    [UseOrientedConstraint] is not changed by calls that leave the match
    constraint alone. *)
Theorem queries_read_one_member cs e :
  (existsb (targets F_initial_pair) cs = false ->
   hasInitialPair (do_calls cs e) = hasInitialPair e)
  /\ (existsb (targets F_initial_triplet) cs = false ->
      hasInitialTriplet (do_calls cs e) = hasInitialTriplet e
      /\ using_initial_triple (do_calls cs e) = using_initial_triple e)
  /\ (existsb (targets F_multiview_match_constraint) cs = false ->
      UseOrientedConstraint (do_calls cs e) = UseOrientedConstraint e).
Proof.
  split; [| split]; intros H.
  - pose proof (do_calls_frame F_initial_pair cs e H) as Hf.
    cbn [get] in Hf. unfold hasInitialPair. rewrite Hf. reflexivity.
  - pose proof (do_calls_frame F_initial_triplet cs e H) as Hf.
    cbn [get] in Hf. unfold hasInitialTriplet, using_initial_triple.
    rewrite Hf. split; reflexivity.
  - pose proof (do_calls_frame F_multiview_match_constraint cs e H) as Hf.
    cbn [get] in Hf. unfold UseOrientedConstraint. rewrite Hf. reflexivity.
Qed.

Lemma queries_read_one_member_witness :
  let cs := [ CallSetUnknownCameraType cameras.PINHOLE_FISHEYE;
              CallSetMaximumTrifocalRansacIterations 5 ] in
  let e := setInitialPair (1, 2) sample_engine in
  existsb (targets F_initial_pair) cs = false
  /\ existsb (targets F_initial_triplet) cs = false
  /\ existsb (targets F_multiview_match_constraint) cs = false
  /\ hasInitialPair (do_calls cs e) = true
  /\ hasInitialTriplet (do_calls cs e) = false
  /\ UseOrientedConstraint (do_calls cs e) = false.
Proof.
  intros cs e.
  destruct (queries_read_one_member cs e) as (Hp & Ht & Hc).
  split; [reflexivity |]. split; [reflexivity |]. split; [reflexivity |].
  split; [rewrite (Hp eq_refl); reflexivity |].
  split; [rewrite (proj1 (Ht eq_refl)); reflexivity |].
  rewrite (Hc eq_refl); reflexivity.
Defined.

(** X8.  In every engine state, when [using_initial_triple] returns true
    so does [hasInitialTriplet]. *)
Theorem using_triple_has_triplet e :
  using_initial_triple e = true -> hasInitialTriplet e = true.
Proof.
  intros H. apply using_initial_triple_spec in H.
  apply Triplet_ne_spec. intros Heq. apply H. rewrite Heq. reflexivity.
Qed.

Lemma using_triple_has_triplet_witness :
  let e := setInitialTriplet (0, 0, 9) sample_engine in
  using_initial_triple e = true /\ hasInitialTriplet e = true.
Proof.
  intros e. split; [reflexivity |].
  apply using_triple_has_triplet. reflexivity.
Defined.

(** X9.  On an engine as the constructor leaves it, the triangulation
    method stays DEFAULT through any calls other than
    [SetTriangulationMethod], and the resection method stays DEFAULT
    through any calls other than [SetResectionMethod]. *)
Theorem default_methods_until_set
    (sfm_data : SfM_Data) (soutDirectory : string) (st : ctor_stores) cs :
  (existsb (targets F_triangulation_method) cs = false ->
   triangulation_method_ (do_calls cs (construct sfm_data soutDirectory st))
   = ETriangulationMethod.DEFAULT)
  /\ (existsb (targets F_resection_method) cs = false ->
      resection_method_ (do_calls cs (construct sfm_data soutDirectory st))
      = resection.DEFAULT).
Proof.
  split; intros H.
  - exact (do_calls_frame F_triangulation_method cs _ H).
  - exact (do_calls_frame F_resection_method cs _ H).
Qed.

Lemma default_methods_until_set_witness :
  let cs := [ CallSetMultiviewMatchConstraint
                MultiviewMatchConstraint.ORIENTATION;
              CallsetInitialPair (1, 2) ] in
  existsb (targets F_triangulation_method) cs = false
  /\ existsb (targets F_resection_method) cs = false
  /\ triangulation_method_ (do_calls cs sample_engine)
     = ETriangulationMethod.DEFAULT
  /\ resection_method_ (do_calls cs sample_engine) = resection.DEFAULT.
Proof.
  intros cs. unfold sample_engine.
  destruct (default_methods_until_set sample_scene "out"
              {| st_html_doc_stream := None;
                 st_sLogging_file := "";
                 st_multiview_match_constraint :=
                   MultiviewMatchConstraint.UNCONSTRAINED;
                 st_initial_triplet := (0, 0, 0);
                 st_initial_pair := (0, 0);
                 st_cam_type := cameras.PINHOLE_RADIAL_K3;
                 st_features_provider := None;
                 st_matches_provider := None;
                 st_map_tracks := ∅;
                 st_shared_track_visibility_helper := None;
                 st_map_ACThreshold := ∅;
                 st_set_remaining_view_id := {[ 0; 1; 2 ]} |} cs)
    as [Ht Hr].
  split; [reflexivity |]. split; [reflexivity |].
  split; [exact (Ht eq_refl) | exact (Hr eq_refl)].
Defined.

(** X10.  Once a sequence contains a call that targets a member, the
    value of that member after the sequence does not depend on the engine
    the sequence started from. *)
Theorem targeted_member_forgets_start f cs e1 e2 :
  Exists (fun c => target c = f) cs ->
  get f (do_calls cs e1) = get f (do_calls cs e2).
Proof.
  intros H. apply do_calls_forget.
  apply Exists_exists in H as (c & Hin & Hc).
  apply existsb_exists. exists c. split; [apply list_elem_of_In, Hin |].
  apply targets_true, Hc.
Qed.

Lemma targeted_member_forgets_start_witness :
  let cs := [ CallSetUnknownCameraType cameras.PINHOLE_BROWN;
              CallsetInitialPair (1, 2) ] in
  Exists (fun c => target c = F_cam_type) cs
  /\ cam_type_ (do_calls cs sample_engine)
     = cam_type_ (do_calls cs (SetUnknownCameraType cameras.PINHOLE
                                 sample_engine)).
Proof.
  intros cs.
  assert (H : Exists (fun c => target c = F_cam_type) cs)
    by (apply Exists_cons_hd; reflexivity).
  split; [exact H |].
  exact (targeted_member_forgets_start F_cam_type cs sample_engine
           (SetUnknownCameraType cameras.PINHOLE sample_engine) H).
Defined.

(** X11.  Members do not influence one another: two engines that differ at
    most in one member differ at most in that member after the same
    sequence of calls. *)
Theorem calls_keep_members_apart f cs e1 e2 :
  same_but f e1 e2 -> same_but f (do_calls cs e1) (do_calls cs e2).
Proof.
  intros H g Hg. apply do_calls_same_member. apply H, Hg.
Qed.

Lemma calls_keep_members_apart_witness :
  let cs := [ CallSetUnknownCameraType cameras.PINHOLE_BROWN;
              CallSetMaximumTrifocalRansacIterations 9 ] in
  let e2 := setInitialPair (1, 2) sample_engine in
  same_but F_initial_pair sample_engine e2
  /\ same_but F_initial_pair (do_calls cs sample_engine) (do_calls cs e2).
Proof.
  intros cs e2.
  assert (H : same_but F_initial_pair sample_engine e2)
    by (intros g Hg; destruct g; first [reflexivity | congruence]).
  split; [exact H |].
  exact (calls_keep_members_apart F_initial_pair cs sample_engine e2 H).
Defined.

End CallSequences.
